(** * The retrieval-augmented knowledge layer of AgriPlan

    A shallow embedding of [knowledge_engine/builder.py] (ingestion) and
    [knowledge_engine/retriever.py] (query), together with the small part
    of the Python runtime, the file system, FAISS and the embedding model
    that the two modules rely on.

    Conventions.
    - Embedding coordinates and distances are exact integers ([Z]); the
      float32 arithmetic of the real libraries is idealised away.
    - The disk is a finite map from paths to nodes.  A function that
      touches the disk is a computation in the monad [M]: it receives the
      disk, and returns the exception or the value together with the disk
      it leaves behind (an exception does not roll the disk back).
    - [print] calls have no effect on the disk and are left out. *)

From stdpp Require Import gmap strings list fin_maps sorting.
From Stdlib Require Import ZArith Lia Ascii.

Local Open Scope Z_scope.

(** ** Python exceptions and the state-and-exception monad *)

Inductive exn :=
  | AssertionError (msg : string)
  | FileNotFoundError (msg : string)
  | FileExistsError (path : string)
  | NotADirectoryError (path : string)
  | IsADirectoryError (path : string)
  | UnicodeDecodeError
  | IndexError (msg : string)
  | RuntimeError (msg : string)
  | UnpicklingError
  | EOFError
  | OSError (msg : string).

#[global] Instance exn_eq_dec : EqDecision exn.
Proof. solve_decision. Defined.

(** A pure computation that may raise. *)
Definition result (A : Type) : Type := exn + A.

(** Python's [assert cond, msg]. *)
Definition py_assert (cond : bool) (msg : string) : result unit :=
  if cond then inr tt else inl (AssertionError msg).

(** [l[i]] on a Python list (or the first axis of a numpy array): a
    negative index counts from the end; anything outside
    [-len(l) .. len(l)-1] raises [IndexError]. *)
Definition py_getitem {A} (l : list A) (i : Z) : result A :=
  let n := Z.of_nat (length l) in
  let j := if i <? 0 then i + n else i in
  if (0 <=? j) && (j <? n) then
    match l !! Z.to_nat j with
    | Some x => inr x
    | None => inl (IndexError "index out of range")
    end
  else inl (IndexError "index out of range").

(** [s.endswith(suffix)]. *)
Definition endswith (s suffix : string) : bool :=
  let n := String.length s in
  let m := String.length suffix in
  (m <=? n)%nat && String.eqb (String.substring (n - m) m s) suffix.

(** ** The disk *)

(** Embedding vectors: [D] coordinates. *)
Abbreviation vec := (list Z).

(** What [faiss.IndexFlatL2(d)] holds: the dimensionality and the stored
    vectors in insertion order ([ntotal] is their number). *)
Record IndexFlatL2 := { d : nat; xb : list vec }.

Definition ntotal (index : IndexFlatL2) : nat := length (xb index).

Inductive content :=
  | Text (s : string)                 (* a UTF-8 text document *)
  | FaissIndexData (index : IndexFlatL2) (* written by faiss.write_index *)
  | PickleData (chunks : list string) (* written by pickle.dump *)
  | Truncated.                        (* opened for writing, write not completed *)

Inductive node :=
  | Dir
  | File (c : content).

Abbreviation disk := (gmap string node).

Definition is_dir (fs : disk) (p : string) : bool :=
  match fs !! p with Some Dir => true | _ => false end.

Definition exists_on (fs : disk) (p : string) : bool :=
  match fs !! p with Some _ => true | None => false end.

Definition M (A : Type) : Type := disk → result A * disk.

Definition ret {A} (a : A) : M A := λ fs, (inr a, fs).
Definition raise {A} (e : exn) : M A := λ fs, (inl e, fs).
Definition bind {A B} (m : M A) (k : A → M B) : M B :=
  λ fs, match m fs with
        | (inr a, fs') => k a fs'
        | (inl e, fs') => (inl e, fs')
        end.
Definition lift {A} (r : result A) : M A := λ fs, (r, fs).

Notation "x <~ m ;; k" := (bind m (λ x, k))
  (at level 100, m at next level, right associativity).
Notation "m ;;; k" := (bind m (λ _, k))
  (at level 100, right associativity).

(** [os.path.join(a, b)] for POSIX paths. *)
Definition os_path_join (a b : string) : string :=
  if String.prefix "/" b then b
  else if String.eqb a "" then b
  else if endswith a "/" then a +:+ b
  else a +:+ "/" +:+ b.

(** [os.path.exists(p)]: true for files and for directories. *)
Definition os_path_exists (p : string) : M bool :=
  λ fs, (inr (exists_on fs p), fs).

(** [os.mkdir(p)]; [parent] is the directory that must hold [p] ([None]
    for a path relative to the working directory). *)
Definition os_mkdir (parent : option string) (p : string) : M unit :=
  λ fs,
    let parent_ok :=
      match parent with
      | None => inr tt
      | Some q =>
          match fs !! q with
          | Some Dir => inr tt
          | Some (File _) => inl (NotADirectoryError p)
          | None => inl (FileNotFoundError p)
          end
      end in
    match parent_ok with
    | inl e => (inl e, fs)
    | inr _ =>
        match fs !! p with
        | Some _ => (inl (FileExistsError p), fs)
        | None => (inr tt, <[p := Dir]> fs)
        end
    end.

(** The directories named by a relative path, outermost first:
    ["a/b"] gives ["a"; "a/b"]. *)
Fixpoint path_prefixes_go (acc s : string) : list string :=
  match s with
  | EmptyString => if String.eqb acc "" then [] else [acc]
  | String c s' =>
      if Ascii.eqb c "/"%char
      then acc :: path_prefixes_go (acc +:+ "/") s'
      else path_prefixes_go (acc +:+ String c EmptyString) s'
  end.

Definition path_prefixes (p : string) : list string := path_prefixes_go "" p.

(** [os.makedirs(name, exist_ok=True)]: every missing ancestor is
    created (a concurrent creation is tolerated); the leaf is created
    unless it already is a directory. *)
Definition mkdir_ancestor (parent : option string) (p : string) : M unit :=
  λ fs, match fs !! p with
        | Some _ => (inr tt, fs)
        | None =>
            match os_mkdir parent p fs with
            | (inl (FileExistsError _), fs') => (inr tt, fs')
            | other => other
            end
        end.

Definition mkdir_leaf (parent : option string) (p : string) : M unit :=
  λ fs, match os_mkdir parent p fs with
        | (inl e, fs') => if is_dir fs' p then (inr tt, fs') else (inl e, fs')
        | ok => ok
        end.

Fixpoint os_makedirs_go (parent : option string) (ps : list string) : M unit :=
  match ps with
  | [] => ret tt
  | [p] => mkdir_leaf parent p
  | p :: rest => mkdir_ancestor parent p ;;; os_makedirs_go (Some p) rest
  end.

Definition os_makedirs (name : string) : M unit :=
  os_makedirs_go None (path_prefixes name).

(** How a write to one file goes.  Opening a file for writing truncates
    it, so a write that fails after the open leaves a truncated file. *)
Inductive write_outcome :=
  | Completes
  | FailsAtOpen
  | FailsPartway.

Definition write_file (o : write_outcome) (fail : exn) (p : string) (c : content) : M unit :=
  λ fs,
    match fs !! p with
    | Some Dir => (inl (IsADirectoryError p), fs)
    | _ =>
        match o with
        | Completes => (inr tt, <[p := File c]> fs)
        | FailsAtOpen => (inl fail, fs)
        | FailsPartway => (inl fail, <[p := File Truncated]> fs)
        end
    end.

(** [open(p, "r", encoding="utf-8").read()]. *)
Definition read_text (p : string) : M string :=
  λ fs,
    match fs !! p with
    | None => (inl (FileNotFoundError p), fs)
    | Some Dir => (inl (IsADirectoryError p), fs)
    | Some (File (Text s)) => (inr s, fs)
    | Some (File _) => (inl UnicodeDecodeError, fs)
    end.

(** [pickle.dump(chunks, open(p, "wb"))] and [pickle.load(open(p, "rb"))]. *)
Definition pickle_dump (o : write_outcome) (chunks : list string) (p : string) : M unit :=
  write_file o (OSError p) p (PickleData chunks).

Definition pickle_load (p : string) : M (list string) :=
  λ fs,
    match fs !! p with
    | None => (inl (FileNotFoundError p), fs)
    | Some Dir => (inl (IsADirectoryError p), fs)
    | Some (File (PickleData chunks)) => (inr chunks, fs)
    | Some (File Truncated) => (inl EOFError, fs)
    | Some (File _) => (inl UnpicklingError, fs)
    end.

(** Sequencing of pure computations that may raise. *)
Definition and_then {A B} (r : result A) (k : A → result B) : result B :=
  match r with
  | inr a => k a
  | inl e => inl e
  end.

Notation "'try' x := r 'in' k" := (and_then r (λ x, k))
  (at level 100, x name, r at next level, k at level 100).

(** ** The embedding model

    [SentenceTransformer(name)] is a function from a text to its
    embedding; [model.encode(sentences)] gives one row per sentence, in
    the order of the input. *)
Definition SentenceTransformer_encode (model : string → vec) (sentences : list string) : list vec :=
  map model sentences.

(** ** FAISS: the exact (brute-force) L2 index

    [IndexFlatL2.search] scans every stored vector, keeps the [k] best
    (distance, label) pairs and returns them sorted by distance and then
    by label; rows with fewer than [k] hits are padded with label [-1]
    (and an infinite distance, [None] here). *)
Module faiss.

Definition IndexFlatL2_new (dim : nat) : IndexFlatL2 := {| d := dim; xb := [] |}.

(** [index.add(x)]: [x] is an [n × d] matrix. *)
Definition add (index : IndexFlatL2) (x : list vec) : result IndexFlatL2 :=
  try _ := py_assert (forallb (λ v, length v =? d index)%nat x) "d == self.d" in
  inr {| d := d index; xb := xb index ++ x |}.

Definition fvec_L2sqr (x y : vec) : Z :=
  foldr Z.add 0 (zip_with (λ a b, (a - b) * (a - b)) x y).

(** A hit: the squared distance and the label (insertion position). *)
Definition hit_leb (a b : Z * nat) : bool :=
  (a.1 <? b.1) || ((a.1 =? b.1) && (a.2 <=? b.2)%nat).

Fixpoint insert_hit (h : Z * nat) (l : list (Z * nat)) : list (Z * nat) :=
  match l with
  | [] => [h]
  | h' :: l' => if hit_leb h h' then h :: l else h' :: insert_hit h l'
  end.

Definition sort_hits (l : list (Z * nat)) : list (Z * nat) :=
  foldr insert_hit [] l.

Definition scan (index : IndexFlatL2) (q : vec) : list (Z * nat) :=
  imap (λ j v, (fvec_L2sqr q v, j)) (xb index).

Definition knn (index : IndexFlatL2) (k : nat) (q : vec) : list (Z * nat) :=
  take k (sort_hits (scan index q)).

Definition search_row (index : IndexFlatL2) (k : nat) (q : vec) : list (option Z) * list Z :=
  let top := knn index k q in
  let pad := (k - length top)%nat in
  (map (λ h, Some h.1) top ++ replicate pad None,
   map (λ h, Z.of_nat h.2) top ++ replicate pad (-1)).

(** [D, I = index.search(x, k)]: [x] is an [n × d] matrix of queries. *)
Definition search (index : IndexFlatL2) (x : list vec) (k : Z)
    : result (list (list (option Z)) * list (list Z)) :=
  try _ := py_assert (forallb (λ q, length q =? d index)%nat x) "d == self.d" in
  try _ := py_assert (0 <? k) "k > 0" in
  let rows := map (search_row index (Z.to_nat k)) x in
  inr (map fst rows, map snd rows).

Definition write_index (o : write_outcome) (index : IndexFlatL2) (p : string) : M unit :=
  write_file o (RuntimeError p) p (FaissIndexData index).

Definition read_index (p : string) : M IndexFlatL2 :=
  λ fs,
    match fs !! p with
    | Some (File (FaissIndexData index)) => (inr index, fs)
    | _ => (inl (RuntimeError p), fs)
    end.

End faiss.

(** ** knowledge_engine/builder.py *)
Module builder.

Definition VECTOR_STORE_PATH : string := "vector_db/agri_knowledge".
Definition EMBEDDING_MODEL_NAME : string :=
  "sentence-transformers/paraphrase-multilingual-MiniLM-L12-v2".
Definition CHUNK_SIZE : nat := 500.
Definition CHUNK_OVERLAP : nat := 50.

Definition txt_only_msg : string :=
  "Currently only TXT format uploads are supported".

Section with_libraries.
(** The two libraries the module instantiates: the embedding models
    by name, and langchain's splitter by chunk size and overlap. *)
Variable SentenceTransformer : string → string → vec.
Variable RecursiveCharacterTextSplitter : nat → nat → string → list string.

Definition model : string → vec := SentenceTransformer EMBEDDING_MODEL_NAME.

Definition load_txt (filepath : string) : M string := read_text filepath.

Definition split_text (text : string) : list string :=
  RecursiveCharacterTextSplitter CHUNK_SIZE CHUNK_OVERLAP text.

(** Chunking, vectorization and the construction of the index: the
    store as it is in memory before anything is written. *)
Definition vectorize (raw_text : string) : result (IndexFlatL2 * list string) :=
  let chunks := split_text raw_text in
  let embeddings := SentenceTransformer_encode model chunks in
  try e0 := py_getitem embeddings 0 in
  let index := faiss.IndexFlatL2_new (length e0) in
  try index := faiss.add index embeddings in
  inr (index, chunks).

(** Storing the data.  The two write outcomes are those of
    [index.faiss] and of [chunks.pkl]. *)
Definition persist (w_index w_chunks : write_outcome)
    (index : IndexFlatL2) (chunks : list string) : M unit :=
  os_makedirs VECTOR_STORE_PATH ;;;
  faiss.write_index w_index index (os_path_join VECTOR_STORE_PATH "index.faiss") ;;;
  pickle_dump w_chunks chunks (os_path_join VECTOR_STORE_PATH "chunks.pkl").

Definition build_vector_store (w_index w_chunks : write_outcome) (file_path : string) : M unit :=
  lift (py_assert (endswith file_path ".txt") txt_only_msg) ;;;
  raw_text <~ load_txt file_path ;;
  store <~ lift (vectorize raw_text) ;;
  persist w_index w_chunks store.1 store.2.
End with_libraries.

End builder.

(** ** knowledge_engine/retriever.py *)
Module retriever.

Definition VECTOR_STORE_PATH : string := "vector_db/agri_knowledge".
Definition EMBEDDING_MODEL_NAME : string :=
  "sentence-transformers/paraphrase-multilingual-MiniLM-L12-v2".
Definition TOP_K : Z := 3.

Definition not_built_msg : string :=
  "❌ The knowledge base has not been built yet, please run（知识库尚未构建，请先运行） builder.build_vector_store()".

(** [[chunks[i] for i in row if i < len(chunks)]] *)
Fixpoint materialize (chunks : list string) (row : list Z) : result (list string) :=
  match row with
  | [] => inr []
  | i :: row' =>
      if i <? Z.of_nat (length chunks) then
        try c := py_getitem chunks i in
        try rest := materialize chunks row' in
        inr (c :: rest)
      else materialize chunks row'
  end.

Section with_libraries.
Variable SentenceTransformer : string → string → vec.

Definition model : string → vec := SentenceTransformer EMBEDDING_MODEL_NAME.

(** The search proper, on a store that is in memory. *)
Definition search_chunks (index : IndexFlatL2) (chunks : list string)
    (query : string) (top_k : Z) : result (list string) :=
  let query_vec := SentenceTransformer_encode model [query] in
  try DI := faiss.search index query_vec top_k in
  try I0 := py_getitem DI.2 0 in
  materialize chunks I0.

Definition query_vector_store (query : string) (top_k : Z) : M (list string) :=
  let index_path := os_path_join VECTOR_STORE_PATH "index.faiss" in
  let chunk_path := os_path_join VECTOR_STORE_PATH "chunks.pkl" in
  has_index <~ os_path_exists index_path ;;
  has_chunks <~ os_path_exists chunk_path ;;
  if negb has_index || negb has_chunks then
    raise (FileNotFoundError not_built_msg)
  else
    index <~ faiss.read_index index_path ;;
    chunks <~ pickle_load chunk_path ;;
    results <~ lift (search_chunks index chunks query top_k) ;;
    ret results.
End with_libraries.

End retriever.

(** ** Stub libraries for running the model on concrete inputs *)
Module stub.
(** One embedding model for every name: the length of the text and the
    code of its first character. *)
Definition embed (name : string) (text : string) : vec :=
  [Z.of_nat (String.length text);
   match text with
   | EmptyString => 0
   | String c _ => Z.of_nat (nat_of_ascii c)
   end].

(** A splitter that cuts at white space. *)
Definition splitter (size overlap : nat) (text : string) : list string :=
  String.words text.
End stub.

(** ** The vocabulary of the specification *)

(** The squared Euclidean distance from the query to the vector stored
    at position [j]. *)
Definition dist_to (index : IndexFlatL2) (q : vec) (j : nat) : Z :=
  from_option (faiss.fvec_L2sqr q) 0 (xb index !! j).

(** Position [i] ranks before position [j]: it is strictly nearer, or
    as near and inserted earlier. *)
Definition closer (index : IndexFlatL2) (q : vec) (i j : nat) : Prop :=
  dist_to index q i < dist_to index q j ∨
  (dist_to index q i = dist_to index q j ∧ (i < j)%nat).

Definition nearest_first (index : IndexFlatL2) (q : vec) (labels : list nat) : Prop :=
  ∀ a b i j, (a < b)%nat → labels !! a = Some i → labels !! b = Some j →
             closer index q i j.

(** [labels] are the positions of the [k] nearest stored vectors, in
    rank order. *)
Definition k_nearest (index : IndexFlatL2) (q : vec) (k : nat) (labels : list nat) : Prop :=
  length labels = k ∧
  NoDup labels ∧
  (∀ i, i ∈ labels → (i < ntotal index)%nat) ∧
  nearest_first index q labels ∧
  (∀ i j, i ∈ labels → (j < ntotal index)%nat → j ∉ labels → closer index q i j).

(** [results] are the chunks stored at [labels], in the same order. *)
Definition chunks_at (chunks : list string) (labels : list nat) (results : list string) : Prop :=
  Forall2 (λ i c, chunks !! i = Some c) labels results.


(** The error taxonomy of the specification, and the exceptions of the
    source that stand for them: each is the exception that a check
    written in the source (or in the FAISS wrapper it calls) raises. *)
Inductive spec_error :=
  | DocumentNotFound
  | UnsupportedFormat
  | EmptyDocument
  | ModelUnavailable
  | DimensionMismatch
  | CountMismatch
  | KnowledgeBaseNotFound
  | CorruptIndex.

#[global] Instance spec_error_eq_dec : EqDecision spec_error.
Proof. solve_decision. Defined.

Definition raised_as (e : exn) : option spec_error :=
  match e with
  | AssertionError msg =>
      if String.eqb msg builder.txt_only_msg then Some UnsupportedFormat
      else if String.eqb msg "d == self.d" then Some DimensionMismatch
      else None
  | FileNotFoundError msg =>
      if String.eqb msg retriever.not_built_msg then Some KnowledgeBaseNotFound
      else Some DocumentNotFound
  | _ => None
  end.

(** The two artifacts of the knowledge base. *)
Definition index_path : string := "vector_db/agri_knowledge/index.faiss".
Definition chunk_path : string := "vector_db/agri_knowledge/chunks.pkl".

(** The directories that hold the knowledge base. *)
Definition kb_dirs : list string := ["vector_db"; "vector_db/agri_knowledge"].

(** From [fs] to [fs'] nothing changed but, possibly, directories of
    [ds] that were absent and now exist. *)
Definition grows_dirs (ds : list string) (fs fs' : disk) : Prop :=
  ∀ p, fs' !! p = fs !! p ∨ (p ∈ ds ∧ fs !! p = None ∧ fs' !! p = Some Dir).

(** The order that [faiss.hit_leb] decides. *)
Definition hit_le (a b : Z * nat) : Prop :=
  a.1 < b.1 ∨ (a.1 = b.1 ∧ (a.2 ≤ b.2)%nat).

(** The exceptions of [os.mkdir]. *)
Definition mkdir_exn (e : exn) : Prop :=
  match e with
  | FileExistsError _ | NotADirectoryError _ | FileNotFoundError _ => True
  | _ => False
  end.

(** The exceptions of a failed write of an artifact. *)
Definition write_exn (e : exn) : Prop :=
  match e with
  | RuntimeError _ | OSError _ => True
  | _ => False
  end.

(** How the persistence step can leave the disk, given the disk [fs1]
    that the creation of the directories left: nothing written; the
    index file truncated; the index written and the chunk file not
    touched; the index written and the chunk file truncated; both
    written. *)
Inductive persisted (w_index w_chunks : write_outcome)
    (index : IndexFlatL2) (chunks : list string) (fs1 : disk)
    : result unit * disk → Prop :=
  | persisted_nothing e :
      e ≠ OSError chunk_path →
      (e = RuntimeError index_path → w_index = FailsAtOpen) →
      persisted w_index w_chunks index chunks fs1 (inl e, fs1)
  | persisted_index_truncated :
      w_index = FailsPartway →
      persisted w_index w_chunks index chunks fs1
        (inl (RuntimeError index_path), <[index_path := File Truncated]> fs1)
  | persisted_index_only e :
      w_index = Completes →
      e ≠ RuntimeError index_path →
      (e = OSError chunk_path → w_chunks = FailsAtOpen) →
      persisted w_index w_chunks index chunks fs1
        (inl e, <[index_path := File (FaissIndexData index)]> fs1)
  | persisted_chunks_truncated :
      w_index = Completes → w_chunks = FailsPartway →
      persisted w_index w_chunks index chunks fs1
        (inl (OSError chunk_path),
         <[chunk_path := File Truncated]>
           (<[index_path := File (FaissIndexData index)]> fs1))
  | persisted_both :
      w_index = Completes → w_chunks = Completes →
      persisted w_index w_chunks index chunks fs1
        (inr tt,
         <[chunk_path := File (PickleData chunks)]>
           (<[index_path := File (FaissIndexData index)]> fs1)).

(** ** Concrete runs *)
Module scenario.
Definition docs : disk :=
  {[ "old.txt" := File (Text "alpha be gamma");
     "new.txt" := File (Text "delta epsilon zeta");
     "empty.txt" := File (Text "") ]}.

Definition build : write_outcome → write_outcome → string → M unit :=
  builder.build_vector_store stub.embed stub.splitter.

Definition query : string → Z → M (list string) :=
  retriever.query_vector_store stub.embed.

(** The disk after a first ingestion, of [old.txt]. *)
Definition gen1 : disk := (build Completes Completes "old.txt" docs).2.

Definition old_index : IndexFlatL2 :=
  {| d := 2; xb := [[5; 97]; [2; 98]; [5; 103]] |}.

(** Two vectors beside one chunk. *)
Definition mismatched : disk :=
  {[ index_path := File (FaissIndexData {| d := 2; xb := [[5; 97]; [2; 98]] |});
     chunk_path := File (PickleData ["alpha"]) ]}.

End scenario.

(** * Facts about the runtime model *)

Section python_lists.
Context {A : Type}.
Implicit Types (l : list A) (i : Z).

Lemma py_getitem_nat l (j : nat) x :
  l !! j = Some x → py_getitem l (Z.of_nat j) = inr x.
Proof.
  intros Hj. pose proof (lookup_lt_Some _ _ _ Hj) as Hlt.
  unfold py_getitem.
  destruct (Z.ltb_spec (Z.of_nat j) 0); [lia|].
  destruct (Z.leb_spec 0 (Z.of_nat j)); [|lia].
  destruct (Z.ltb_spec (Z.of_nat j) (Z.of_nat (length l))); [|lia].
  simpl. by rewrite Nat2Z.id, Hj.
Qed.

Lemma py_getitem_minus_one l x :
  last l = Some x → py_getitem l (-1) = inr x.
Proof.
  intros Hl. rewrite last_lookup in Hl.
  pose proof (lookup_lt_Some _ _ _ Hl) as Hlt.
  unfold py_getitem. cbv zeta. change (-1 <? 0) with true. cbv iota.
  replace (Z.to_nat (-1 + Z.of_nat (length l))) with (Nat.pred (length l)) by lia.
  rewrite Hl.
  destruct (Z.leb_spec 0 (-1 + Z.of_nat (length l))); [|lia].
  destruct (Z.ltb_spec (-1 + Z.of_nat (length l)) (Z.of_nat (length l))); [|lia].
  done.
Qed.

Lemma py_getitem_in_range l i :
  - Z.of_nat (length l) ≤ i < Z.of_nat (length l) → ∃ x, py_getitem l i = inr x.
Proof.
  intros Hi. unfold py_getitem.
  set (j := if i <? 0 then i + Z.of_nat (length l) else i).
  assert (0 ≤ j < Z.of_nat (length l)) as Hj.
  { subst j. destruct (Z.ltb_spec i 0); lia. }
  destruct (Z.leb_spec 0 j); [|lia].
  destruct (Z.ltb_spec j (Z.of_nat (length l))); [|lia].
  simpl. destruct (lookup_lt_is_Some_2 l (Z.to_nat j)) as [x Hx]; [lia|].
  rewrite Hx. eauto.
Qed.

Lemma py_getitem_exn l i e : py_getitem l i = inl e → ∃ msg, e = IndexError msg.
Proof.
  unfold py_getitem. cbv zeta.
  destruct (_ && _); [destruct (l !! _)|]; intros [= <-]; eauto.
Qed.
End python_lists.

Section hits.
Import faiss.
Implicit Types (h : Z * nat) (l : list (Z * nat)).

Lemma hit_leb_le a b : hit_leb a b = true ↔ hit_le a b.
Proof.
  unfold hit_leb, hit_le.
  rewrite orb_true_iff, andb_true_iff, Z.ltb_lt, Z.eqb_eq, Nat.leb_le. tauto.
Qed.

Lemma hit_leb_total a b : hit_leb a b = false → hit_le b a.
Proof.
  intros Hf. destruct (hit_leb b a) eqn:Hba; [by apply hit_leb_le|].
  exfalso. unfold hit_leb in *.
  apply orb_false_iff in Hf as [H1 H2], Hba as [H3 H4].
  apply Z.ltb_ge in H1, H3.
  assert (a.1 = b.1) as Heq by lia.
  rewrite Heq, Z.eqb_refl in H2. rewrite Heq, Z.eqb_refl in H4. simpl in *.
  apply Nat.leb_gt in H2, H4. lia.
Qed.

#[local] Instance hit_le_trans : Transitive hit_le.
Proof. intros a b c. unfold hit_le. lia. Qed.

Lemma insert_hit_perm h l : insert_hit h l ≡ₚ h :: l.
Proof.
  induction l as [|h' l IH]; simpl; [done|].
  destruct (hit_leb h h'); [done|].
  rewrite IH. apply Permutation_swap.
Qed.

Lemma sort_hits_perm l : sort_hits l ≡ₚ l.
Proof.
  induction l as [|h l IH]; simpl; [done|].
  by rewrite insert_hit_perm, IH.
Qed.

Lemma insert_hit_sorted h l :
  StronglySorted hit_le l → StronglySorted hit_le (insert_hit h l).
Proof.
  induction 1 as [|h' l Hs IH Hall]; simpl.
  - repeat constructor.
  - destruct (hit_leb h h') eqn:Hle.
    + apply hit_leb_le in Hle. constructor; [by constructor|].
      constructor; [done|].
      eapply Forall_impl; [exact Hall|]. intros x Hx. by etrans.
    + apply hit_leb_total in Hle. constructor; [done|].
      rewrite insert_hit_perm. by constructor.
Qed.

Lemma sorted_lookup_le l a b ha hb :
  StronglySorted hit_le l → (a < b)%nat →
  l !! a = Some ha → l !! b = Some hb → hit_le ha hb.
Proof.
  intros Hs. revert a b. induction Hs as [|h l Hs IH Hall]; intros a b Hab Ha Hb.
  - by rewrite lookup_nil in Ha.
  - destruct b as [|b]; [lia|]. simpl in Hb. destruct a as [|a]; simpl in Ha.
    + simplify_eq. rewrite Forall_forall in Hall.
      eapply Hall, list_elem_of_lookup_2, Hb.
    + eapply (IH a b); [lia|done..].
Qed.

Lemma sort_hits_sorted l : StronglySorted hit_le (sort_hits l).
Proof.
  induction l as [|h l IH]; simpl; [constructor|].
  by apply insert_hit_sorted.
Qed.
End hits.

Section knn_facts.
Import faiss.
Variables (index : IndexFlatL2) (q : vec).

Lemma scan_lookup j :
  scan index q !! j = (λ v, (fvec_L2sqr q v, j)) <$> xb index !! j.
Proof. unfold scan. by rewrite list_lookup_imap. Qed.

Lemma scan_length : length (scan index q) = ntotal index.
Proof. unfold scan, ntotal. by rewrite length_imap. Qed.

Lemma elem_of_scan h :
  h ∈ scan index q ↔ (h.2 < ntotal index)%nat ∧ h.1 = dist_to index q h.2.
Proof.
  rewrite list_elem_of_lookup. split.
  - intros [j Hj]. rewrite scan_lookup in Hj.
    destruct (xb index !! j) as [v|] eqn:Hv; simplify_eq/=.
    split; [by eapply lookup_lt_Some|]. unfold dist_to. by rewrite Hv.
  - intros [Hlt Hd]. exists h.2. rewrite scan_lookup.
    destruct (lookup_lt_is_Some_2 (xb index) h.2 Hlt) as [v Hv].
    unfold dist_to in Hd. rewrite Hv in *. simpl in *.
    destruct h; simpl in *. by subst.
Qed.

Lemma scan_labels : (scan index q).*2 = seq 0 (ntotal index).
Proof.
  apply list_eq. intros j. rewrite list_lookup_fmap, scan_lookup.
  destruct (xb index !! j) as [v|] eqn:Hv; simpl.
  - symmetry. apply lookup_seq. split; [done|]. by eapply lookup_lt_Some.
  - symmetry. apply lookup_seq_ge. by apply lookup_ge_None.
Qed.

Lemma sorted_scan_NoDup : NoDup (sort_hits (scan index q)).*2.
Proof. rewrite sort_hits_perm, scan_labels. apply NoDup_seq. Qed.

(** Two hits of the scan in the order of [hit_le] and with distinct
    labels are in rank order. *)
Lemma hit_le_closer h1 h2 :
  h1 ∈ scan index q → h2 ∈ scan index q → h1.2 ≠ h2.2 →
  hit_le h1 h2 → closer index q h1.2 h2.2.
Proof.
  intros [_ H1]%elem_of_scan [_ H2]%elem_of_scan Hne Hle.
  unfold hit_le in Hle. unfold closer. rewrite <-H1, <-H2. lia.
Qed.

Lemma knn_length k : length (knn index k q) = (k `min` ntotal index)%nat.
Proof.
  unfold knn. rewrite length_take, sort_hits_perm, scan_length. done.
Qed.

Lemma knn_k_nearest k :
  (k ≤ ntotal index)%nat → k_nearest index q k (knn index k q).*2.
Proof.
  intros Hk. unfold knn.
  set (s := sort_hits (scan index q)).
  assert (StronglySorted hit_le (take k s ++ drop k s)) as Hsorted.
  { rewrite take_drop. apply sort_hits_sorted. }
  assert (NoDup (take k s ++ drop k s).*2) as Hnd.
  { rewrite take_drop. apply sorted_scan_NoDup. }
  assert (∀ h, h ∈ s → h ∈ scan index q) as Hin.
  { intros h. unfold s. by rewrite sort_hits_perm. }
  assert (∀ h, h ∈ take k s → h ∈ s) as Htake.
  { intros h Hh. rewrite <-(take_drop k s). apply elem_of_app; auto. }
  apply StronglySorted_app in Hsorted as (Hcross & Hs1 & Hs2).
  rewrite fmap_app in Hnd. apply NoDup_app in Hnd as (Hnd1 & Hdisj & Hnd2).
  repeat split.
  - rewrite length_fmap, length_take.
    unfold s. rewrite sort_hits_perm, scan_length. lia.
  - done.
  - intros i (h & -> & Hh)%list_elem_of_fmap.
    by apply Htake, Hin, elem_of_scan in Hh as [? _].
  - intros a b i j Hab Ha Hb.
    rewrite list_lookup_fmap in Ha, Hb.
    destruct (take k s !! a) as [ha|] eqn:Hha; simplify_eq/=.
    destruct (take k s !! b) as [hb|] eqn:Hhb; simplify_eq/=.
    apply hit_le_closer.
    + eapply Hin, Htake, list_elem_of_lookup_2, Hha.
    + eapply Hin, Htake, list_elem_of_lookup_2, Hhb.
    + intros Heq.
      assert (a = b); [|lia].
      eapply NoDup_lookup; [exact Hnd1| |];
        rewrite list_lookup_fmap; [by rewrite Hha|by rewrite Hhb, Heq].
    + by eapply (sorted_lookup_le (take k s) a b).
  - intros i j (h & -> & Hh)%list_elem_of_fmap Hj Hnotin.
    set (hj := (dist_to index q j, j)).
    assert (hj ∈ scan index q) as Hscan by (by apply elem_of_scan).
    assert (hj ∈ take k s ++ drop k s) as Hsplit.
    { rewrite take_drop. unfold s. by rewrite sort_hits_perm. }
    apply elem_of_app in Hsplit as [Hl|Hr].
    { exfalso. apply Hnotin. apply list_elem_of_fmap. by exists hj. }
    change j with hj.2. apply hit_le_closer; [by apply Hin, Htake|done| |by apply Hcross].
    intros Heq. apply (Hdisj h.2).
    + apply list_elem_of_fmap. by exists h.
    + rewrite Heq. apply list_elem_of_fmap. by exists hj.
Qed.
End knn_facts.

Section materialization.
Import retriever.
Implicit Types (chunks : list string) (row : list Z) (labels : list nat).

(** On labels of the index the comprehension keeps those below the
    number of chunks and reads the chunk of each. *)
Lemma materialize_filter chunks labels :
  ∃ results,
    materialize chunks (Z.of_nat <$> labels) = inr results ∧
    chunks_at chunks (filter (λ i, (i < length chunks)%nat) labels) results.
Proof.
  induction labels as [|i labels (rest & Hrest & Hat)].
  - exists []. split; [done|constructor].
  - rewrite fmap_cons. cbn [materialize]. rewrite filter_cons.
    destruct (Z.ltb_spec (Z.of_nat i) (Z.of_nat (length chunks))) as [Hi|Hi].
    + rewrite decide_True by lia.
      destruct (lookup_lt_is_Some_2 chunks i) as [c Hc]; [lia|].
      rewrite (py_getitem_nat _ _ _ Hc). simpl. rewrite Hrest. simpl.
      exists (c :: rest). split; [done|by constructor].
    + rewrite decide_False by lia. by exists rest.
Qed.

Lemma filter_below_id (n : nat) labels :
  (∀ i, i ∈ labels → (i < n)%nat) → filter (λ i, (i < n)%nat) labels = labels.
Proof.
  induction labels as [|i labels IH]; intros Hlt; [done|].
  rewrite filter_cons_True by (apply Hlt; by left).
  f_equal. apply IH. intros j Hj. apply Hlt. by right.
Qed.

Lemma materialize_labels chunks labels :
  (∀ i, i ∈ labels → (i < length chunks)%nat) →
  ∃ results, materialize chunks (Z.of_nat <$> labels) = inr results ∧
             chunks_at chunks labels results.
Proof.
  intros Hlt. destruct (materialize_filter chunks labels) as (results & Hm & Hat).
  exists results. split; [done|].
  by rewrite filter_below_id in Hat.
Qed.



Lemma materialize_app chunks row1 row2 res1 res2 :
  materialize chunks row1 = inr res1 → materialize chunks row2 = inr res2 →
  materialize chunks (row1 ++ row2) = inr (res1 ++ res2).
Proof.
  revert res1. induction row1 as [|i row1 IH]; intros res1; simpl.
  - by intros [= <-].
  - destruct (i <? Z.of_nat (length chunks)); [|by apply IH].
    destruct (py_getitem chunks i) as [e|c]; simpl; [done|].
    destruct (materialize chunks row1) as [e|rest]; simpl; [done|].
    intros [= <-] H2. by rewrite (IH rest eq_refl H2).
Qed.

(** The padding label [-1] is below any length, and [chunks[-1]] is
    the last chunk. *)
Lemma materialize_padding chunks c n :
  last chunks = Some c →
  materialize chunks (replicate n (-1)) = inr (replicate n c).
Proof.
  intros Hlast. induction n as [|n IH]; simpl; [done|].
  destruct (Z.ltb_spec (-1) (Z.of_nat (length chunks))); [|lia].
  by rewrite (py_getitem_minus_one _ _ Hlast), IH.
Qed.
End materialization.

Section search_facts.
Import faiss.
Implicit Types (index : IndexFlatL2) (q : vec) (k : Z).

Lemma search_one index q k :
  length q = d index → 0 < k →
  search index [q] k =
    inr ([ (search_row index (Z.to_nat k) q).1 ], [ (search_row index (Z.to_nat k) q).2 ]).
Proof.
  intros Hq Hk. unfold search. simpl. rewrite Hq, Nat.eqb_refl. simpl.
  destruct (Z.ltb_spec 0 k); [done|lia].
Qed.

(** A search that returns has one row per query, each of [k] labels
    that are [-1] or a position of the index. *)
Lemma search_rows index x k DI row :
  search index x k = inr DI → row ∈ DI.2 →
  0 < k ∧ length row = Z.to_nat k ∧
  ∀ i, i ∈ row → i = -1 ∨ 0 ≤ i < Z.of_nat (ntotal index).
Proof.
  unfold search. intros Hs Hrow.
  destruct (forallb _ x); simpl in Hs; [|done].
  destruct (Z.ltb_spec 0 k) as [Hk|]; simpl in Hs; [|done].
  injection Hs as <-. simpl in Hrow.
  apply list_elem_of_fmap in Hrow as (r & -> & Hr).
  apply list_elem_of_fmap in Hr as (q & -> & _).
  split; [done|]. unfold search_row. simpl. split.
  - rewrite length_app, length_fmap, length_replicate, knn_length. lia.
  - intros i [Hi|Hi]%elem_of_app.
    + apply list_elem_of_fmap in Hi as (h & -> & Hh). right.
      assert (h ∈ scan index q) as [Hlt _]%elem_of_scan; [|lia].
      unfold knn in Hh. apply elem_of_take in Hh as (j & Hj & _).
      apply list_elem_of_lookup_2 in Hj. by rewrite sort_hits_perm in Hj.
    + apply elem_of_replicate in Hi as [-> _]. by left.
Qed.


End search_facts.

Section disk_facts.
Implicit Types (fs : disk) (p : string).

Lemma grows_dirs_refl ds fs : grows_dirs ds fs fs.
Proof. intros p. by left. Qed.

Lemma grows_dirs_trans ds1 ds2 fs fs1 fs2 :
  grows_dirs ds1 fs fs1 → grows_dirs ds2 fs1 fs2 → grows_dirs (ds1 ++ ds2) fs fs2.
Proof.
  intros H1 H2 p. destruct (H2 p) as [E2|(Hin2 & Hn2 & Hd2)], (H1 p) as [E1|(Hin1 & Hn1 & Hd1)].
  - left. congruence.
  - right. rewrite E2. split_and!; [apply elem_of_app; by left|done..].
  - right. rewrite <-E1. split_and!; [apply elem_of_app; by right|done..].
  - congruence.
Qed.

Lemma os_mkdir_grows parent p fs : grows_dirs [p] fs (os_mkdir parent p fs).2.
Proof.
  unfold os_mkdir.
  destruct parent as [q|]; [destruct (fs !! q) as [[|c]|]|]; simpl;
    try apply grows_dirs_refl;
    (destruct (fs !! p) eqn:Hp; simpl; [apply grows_dirs_refl|]);
    intros p'; (destruct (decide (p = p')) as [<-|Hne];
      [right; rewrite lookup_insert_eq; split_and!; [by left|done..]
      |left; by rewrite lookup_insert_ne]).
Qed.

Lemma mkdir_leaf_grows parent p fs : grows_dirs [p] fs (mkdir_leaf parent p fs).2.
Proof.
  unfold mkdir_leaf. pose proof (os_mkdir_grows parent p fs) as Hg.
  destruct (os_mkdir parent p fs) as [[e|[]] fs']; simpl in *; [|done].
  by destruct (is_dir fs' p).
Qed.

Lemma mkdir_ancestor_grows parent p fs : grows_dirs [p] fs (mkdir_ancestor parent p fs).2.
Proof.
  unfold mkdir_ancestor. destruct (fs !! p); [apply grows_dirs_refl|].
  pose proof (os_mkdir_grows parent p fs) as Hg.
  destruct (os_mkdir parent p fs) as [[e|[]] fs']; simpl in *; [|done].
  by destruct e.
Qed.

Lemma bind_grows {A B} (m : M A) (k : A → M B) ds1 ds2 fs :
  grows_dirs ds1 fs (m fs).2 →
  (∀ a fs1, grows_dirs ds2 fs1 (k a fs1).2) →
  grows_dirs (ds1 ++ ds2) fs (bind m k fs).2.
Proof.
  intros Hm Hk. unfold bind. destruct (m fs) as [[e|a] fs1]; simpl in *.
  - eapply grows_dirs_trans; [done|apply grows_dirs_refl].
  - eapply grows_dirs_trans; [done|apply Hk].
Qed.

Lemma os_makedirs_go_grows ps parent fs :
  grows_dirs ps fs (os_makedirs_go parent ps fs).2.
Proof.
  revert parent fs. induction ps as [|p ps IH]; intros parent fs.
  - apply grows_dirs_refl.
  - destruct ps as [|p' ps]; [apply mkdir_leaf_grows|].
    apply (bind_grows (mkdir_ancestor parent p) _ [p] (p' :: ps)).
    + apply mkdir_ancestor_grows.
    + intros _ fs1. apply IH.
Qed.

Lemma os_makedirs_kb fs :
  grows_dirs kb_dirs fs (os_makedirs builder.VECTOR_STORE_PATH fs).2.
Proof. apply (os_makedirs_go_grows kb_dirs None fs). Qed.

Lemma grows_dirs_artifacts fs fs' :
  grows_dirs kb_dirs fs fs' →
  fs' !! index_path = fs !! index_path ∧ fs' !! chunk_path = fs !! chunk_path.
Proof.
  intros Hg. split.
  - destruct (Hg index_path) as [?|(Hin & _)]; [done|].
    exfalso. revert Hin. unfold kb_dirs. rewrite !elem_of_cons, elem_of_nil.
    intros [?|[?|[]]]; discriminate.
  - destruct (Hg chunk_path) as [?|(Hin & _)]; [done|].
    exfalso. revert Hin. unfold kb_dirs. rewrite !elem_of_cons, elem_of_nil.
    intros [?|[?|[]]]; discriminate.
Qed.

Lemma os_mkdir_exn parent p fs e fs' :
  os_mkdir parent p fs = (inl e, fs') → mkdir_exn e.
Proof.
  unfold os_mkdir.
  destruct parent as [q|]; [destruct (fs !! q) as [[|c]|]|];
    try (intros [= <- <-]; exact I);
    (destruct (fs !! p); intros [= <- _]; exact I).
Qed.

Lemma os_makedirs_go_exn ps parent fs e fs' :
  os_makedirs_go parent ps fs = (inl e, fs') → mkdir_exn e.
Proof.
  revert parent fs. induction ps as [|p ps IH]; intros parent fs; [done|].
  destruct ps as [|p' ps].
  - cbn [os_makedirs_go]. unfold mkdir_leaf.
    destruct (os_mkdir parent p fs) as [[e1|[]] fs1] eqn:Hm; [|done].
    destruct (is_dir fs1 p); [done|]. intros [= <- <-].
    by eapply os_mkdir_exn.
  - cbn [os_makedirs_go]. unfold bind.
    destruct (mkdir_ancestor parent p fs) as [[e1|[]] fs1] eqn:Hm.
    + intros [= <- <-]. unfold mkdir_ancestor in Hm.
      destruct (fs !! p); [done|].
      destruct (os_mkdir parent p fs) as [[e2|[]] fs2] eqn:Hm2; [|done].
      apply os_mkdir_exn in Hm2. by destruct e2; simplify_eq.
    + apply IH.
Qed.

Lemma write_file_cases o fail p c fs :
  (write_file o fail p c fs = (inr tt, <[p := File c]> fs) ∧ o = Completes) ∨
  write_file o fail p c fs = (inl (IsADirectoryError p), fs) ∨
  (write_file o fail p c fs = (inl fail, fs) ∧ o = FailsAtOpen) ∨
  (write_file o fail p c fs = (inl fail, <[p := File Truncated]> fs) ∧ o = FailsPartway).
Proof.
  unfold write_file.
  destruct (fs !! p) as [[|c']|] eqn:Hp; [by right; left|..];
    destruct o; auto.
Qed.
End disk_facts.

Section builder_facts.
Variable SentenceTransformer : string → string → vec.
Variable RecursiveCharacterTextSplitter : nat → nat → string → list string.

Abbreviation build_vector_store :=
  (builder.build_vector_store SentenceTransformer RecursiveCharacterTextSplitter).
Abbreviation vectorize :=
  (builder.vectorize SentenceTransformer RecursiveCharacterTextSplitter).
Abbreviation split_text := (builder.split_text RecursiveCharacterTextSplitter).
Abbreviation model := (builder.model SentenceTransformer).

Lemma builder_paths :
  os_path_join builder.VECTOR_STORE_PATH "index.faiss" = index_path ∧
  os_path_join builder.VECTOR_STORE_PATH "chunks.pkl" = chunk_path.
Proof. split; reflexivity. Qed.


(** A document without chunks has no first embedding. *)
Lemma vectorize_empty raw :
  split_text raw = [] → vectorize raw = inl (IndexError "index out of range").
Proof.
  intros Hnil. unfold builder.vectorize, SentenceTransformer_encode.
  by rewrite Hnil.
Qed.

Abbreviation persist := builder.persist.

Lemma persist_run w_index w_chunks index chunks fs :
  ∃ fs1, grows_dirs kb_dirs fs fs1 ∧
         persisted w_index w_chunks index chunks fs1
           (persist w_index w_chunks index chunks fs).
Proof.
  unfold builder.persist. destruct builder_paths as [-> ->].
  pose proof (os_makedirs_kb fs) as Hg. unfold bind at 1.
  destruct (os_makedirs builder.VECTOR_STORE_PATH fs) as [[e|[]] fs1] eqn:Hmk;
    simpl in Hg; exists fs1; (split; [done|]).
  { apply os_makedirs_go_exn in Hmk. constructor; by destruct e. }
  unfold bind, faiss.write_index, pickle_dump.
  destruct (write_file_cases w_index (RuntimeError index_path) index_path
              (FaissIndexData index) fs1)
    as [(-> & ->)|[->|[(-> & ->)|(-> & ->)]]];
    [|by constructor..].
  set (fs2 := <[index_path := File (FaissIndexData index)]> fs1).
  destruct (write_file_cases w_chunks (OSError chunk_path) chunk_path
              (PickleData chunks) fs2)
    as [(-> & ->)|[->|[(-> & ->)|(-> & ->)]]];
    by constructor.
Qed.

Lemma vectorize_exn raw e : vectorize raw = inl e → ¬ write_exn e.
Proof.
  unfold builder.vectorize, SentenceTransformer_encode.
  destruct (py_getitem _ 0) as [e0|v0] eqn:He0; simpl.
  - intros [= <-]. apply py_getitem_exn in He0 as [msg ->]. by intros [].
  - unfold faiss.add, py_assert.
    destruct (forallb _ _); simpl; [done|]. intros [= <-]. by intros [].
Qed.

(** A run of the ingestion stops before the disk is touched, or is
    the persistence of the store built in memory. *)
Lemma build_run w_index w_chunks file_path fs :
  (∃ e, build_vector_store w_index w_chunks file_path fs = (inl e, fs) ∧
        ¬ write_exn e) ∨
  (∃ raw index chunks,
     endswith file_path ".txt" = true ∧
     fs !! file_path = Some (File (Text raw)) ∧
     vectorize raw = inr (index, chunks) ∧
     build_vector_store w_index w_chunks file_path fs =
       persist w_index w_chunks index chunks fs).
Proof.
  unfold builder.build_vector_store, bind, lift, builder.load_txt, read_text, py_assert.
  destruct (endswith file_path ".txt");
    [|left; eexists; split; [done|by intros []]].
  destruct (fs !! file_path) as [[|[raw| | |]]|];
    try (left; eexists; split; [done|by intros []]).
  destruct (vectorize raw) as [e|[index chunks]] eqn:Hv.
  - left. exists e. split; [done|]. by eapply vectorize_exn.
  - right. by exists raw, index, chunks.
Qed.

(** The store is built as soon as there is a chunk and the embeddings
    agree on their length (as the rows of one array do). *)
Lemma vectorize_ok raw c0 chunks :
  split_text raw = c0 :: chunks →
  Forall (λ c, length (model c) = length (model c0)) chunks →
  vectorize raw =
    inr ({| d := length (model c0); xb := model <$> (c0 :: chunks) |}, c0 :: chunks).
Proof.
  intros Hsplit Hall. unfold builder.vectorize, SentenceTransformer_encode.
  rewrite Hsplit. simpl. unfold faiss.add, py_assert. simpl.
  rewrite Nat.eqb_refl. simpl.
  assert (forallb (λ v, length v =? length (model c0))%nat (map model chunks) = true)
    as ->; [|done].
  apply forallb_forall. intros v (c & <- & Hc)%in_map_iff.
  apply Nat.eqb_eq. rewrite Forall_forall in Hall.
  by apply Hall, list_elem_of_In.
Qed.

Lemma os_makedirs_ok fs :
  (fs !! "vector_db" = None ∨ fs !! "vector_db" = Some Dir) →
  (fs !! "vector_db/agri_knowledge" = None ∨ fs !! "vector_db/agri_knowledge" = Some Dir) →
  ∃ fs1, os_makedirs builder.VECTOR_STORE_PATH fs = (inr tt, fs1).
Proof.
  intros Hd1 Hd2. unfold os_makedirs.
  change (path_prefixes builder.VECTOR_STORE_PATH) with kb_dirs.
  unfold kb_dirs. cbn [os_makedirs_go].
  unfold bind, mkdir_ancestor, mkdir_leaf, os_mkdir, is_dir.
  destruct Hd1 as [H1|H1], Hd2 as [H2|H2]; rewrite H1; cbv beta iota;
    rewrite ?lookup_insert_eq, ?lookup_insert_ne, ?H1, ?H2 by done;
    cbv beta iota; rewrite ?lookup_insert_eq, ?lookup_insert_ne, ?H2 by done;
    by eexists.
Qed.

Lemma write_file_completes fail p c fs :
  fs !! p ≠ Some Dir → write_file Completes fail p c fs = (inr tt, <[p := File c]> fs).
Proof. unfold write_file. by destruct (fs !! p) as [[]|]. Qed.

(** On a disk where nothing stands in the way of the directories and
    of the two files, and with both writes completing, the ingestion
    of a document that yields a store succeeds. *)
Lemma build_succeeds file_path fs raw index chunks :
  endswith file_path ".txt" = true →
  fs !! file_path = Some (File (Text raw)) →
  vectorize raw = inr (index, chunks) →
  (fs !! "vector_db" = None ∨ fs !! "vector_db" = Some Dir) →
  (fs !! "vector_db/agri_knowledge" = None ∨ fs !! "vector_db/agri_knowledge" = Some Dir) →
  fs !! index_path ≠ Some Dir → fs !! chunk_path ≠ Some Dir →
  ∃ fs', build_vector_store Completes Completes file_path fs = (inr tt, fs').
Proof.
  intros Htxt Hdoc Hv Hd1 Hd2 Hni Hnc.
  destruct (os_makedirs_ok fs Hd1 Hd2) as [fs1 Hmk].
  pose proof (os_makedirs_kb fs) as Hg. rewrite Hmk in Hg.
  apply grows_dirs_artifacts in Hg as [Hgi Hgc]. simpl in Hgi, Hgc.
  unfold builder.build_vector_store, bind, lift, builder.load_txt, read_text, py_assert.
  rewrite Htxt, Hdoc. cbv beta iota. rewrite Hv. cbv beta iota.
  unfold builder.persist. destruct builder_paths as [-> ->].
  unfold bind, faiss.write_index, pickle_dump. rewrite Hmk. cbv beta iota.
  rewrite write_file_completes by (by rewrite Hgi).
  rewrite write_file_completes by (by rewrite lookup_insert_ne, Hgc).
  by eexists.
Qed.
End builder_facts.

Section retriever_facts.
Variable SentenceTransformer : string → string → vec.

Abbreviation query_vector_store := (retriever.query_vector_store SentenceTransformer).
Abbreviation search_chunks := (retriever.search_chunks SentenceTransformer).
Abbreviation qmodel := (retriever.model SentenceTransformer).

Lemma retriever_paths :
  os_path_join retriever.VECTOR_STORE_PATH "index.faiss" = index_path ∧
  os_path_join retriever.VECTOR_STORE_PATH "chunks.pkl" = chunk_path.
Proof. split; reflexivity. Qed.

(** With both artifacts on the disk the query is the search on the
    store they hold; the disk is only read. *)
Lemma query_loaded fs index chunks query top_k :
  fs !! index_path = Some (File (FaissIndexData index)) →
  fs !! chunk_path = Some (File (PickleData chunks)) →
  query_vector_store query top_k fs = (search_chunks index chunks query top_k, fs).
Proof.
  intros Hi Hc. unfold retriever.query_vector_store.
  destruct retriever_paths as [-> ->].
  unfold bind, os_path_exists, exists_on, faiss.read_index, pickle_load, lift, ret.
  do 3 (cbn beta iota zeta delta [negb orb]; rewrite ?Hi, ?Hc).
  by destruct (search_chunks index chunks query top_k).
Qed.

Lemma query_missing fs query top_k :
  fs !! index_path = None ∨ fs !! chunk_path = None →
  query_vector_store query top_k fs =
    (inl (FileNotFoundError retriever.not_built_msg), fs).
Proof.
  intros Hmiss. unfold retriever.query_vector_store.
  destruct retriever_paths as [-> ->].
  unfold bind, os_path_exists, exists_on, raise. cbv beta zeta.
  destruct Hmiss as [-> | ->]; [done|].
  destruct (fs !! index_path); [done|]. by rewrite orb_true_r.
Qed.

Lemma search_chunks_row index chunks query top_k :
  length (qmodel query) = d index → 0 < top_k →
  search_chunks index chunks query top_k =
    retriever.materialize chunks
      (faiss.search_row index (Z.to_nat top_k) (qmodel query)).2.
Proof.
  intros Hd Hk. unfold retriever.search_chunks, SentenceTransformer_encode.
  simpl map. fold qmodel. rewrite (search_one _ _ _ Hd Hk). done.
Qed.




(** With fewer vectors than asked for, the row is every position in
    rank order followed by padding, and each padding label adds the
    last chunk. *)
Lemma search_chunks_short index chunks query top_k :
  length chunks = ntotal index → chunks ≠ [] →
  length (qmodel query) = d index →
  Z.of_nat (ntotal index) < top_k →
  ∃ labels results c,
    search_chunks index chunks query top_k
      = inr (results ++ replicate (Z.to_nat top_k - ntotal index) c) ∧
    last chunks = Some c ∧
    k_nearest index (qmodel query) (ntotal index) labels ∧
    chunks_at chunks labels results.
Proof.
  intros Hlen Hne Hd Hk. set (q := qmodel query).
  destruct (last chunks) as [c|] eqn:Hlast;
    [|by apply last_None in Hlast].
  pose proof (knn_k_nearest index q (ntotal index) (Nat.le_refl _)) as Hnear.
  destruct (materialize_labels chunks (faiss.knn index (ntotal index) q).*2)
    as (results & Hres & Hat).
  { intros i Hi. rewrite Hlen. by apply Hnear. }
  exists (faiss.knn index (ntotal index) q).*2, results, c.
  split_and!; [|done..].
  rewrite search_chunks_row by (done || lia). fold q.
  unfold faiss.search_row. cbn [snd].
  assert (faiss.knn index (Z.to_nat top_k) q = faiss.knn index (ntotal index) q) as ->.
  { unfold faiss.knn.
    rewrite !take_ge; [done|rewrite sort_hits_perm, scan_length; lia..]. }
  rewrite knn_length, Nat.min_id.
  assert (map (λ h : Z * nat, Z.of_nat h.2) (faiss.knn index (ntotal index) q)
          = Z.of_nat <$> (faiss.knn index (ntotal index) q).*2) as ->
    by (by rewrite <-list_fmap_compose).
  by apply materialize_app, materialize_padding.
Qed.
End retriever_facts.

(** * Properties of the query *)



(** C8: when the index file or the chunk file is absent the query
    fails, for every query string and every count, with the
    [FileNotFoundError] that says the knowledge base has not been
    built, and the disk is left as it was. *)
Theorem query_without_artifacts
    (SentenceTransformer : string → string → vec) (fs : disk)
    (query : string) (top_k : Z) :
  fs !! index_path = None ∨ fs !! chunk_path = None →
  retriever.query_vector_store SentenceTransformer query top_k fs
    = (inl (FileNotFoundError retriever.not_built_msg), fs) ∧
  raised_as (FileNotFoundError retriever.not_built_msg) = Some KnowledgeBaseNotFound.
Proof. intros Hmiss. split; [by apply query_missing|reflexivity]. Qed.

Lemma query_without_artifacts_witness :
  retriever.query_vector_store stub.embed "beta" 3 scenario.docs
    = (inl (FileNotFoundError retriever.not_built_msg), scenario.docs) ∧
  raised_as (FileNotFoundError retriever.not_built_msg) = Some KnowledgeBaseNotFound.
Proof.
  apply (query_without_artifacts stub.embed scenario.docs "beta" 3).
  left. vm_compute. reflexivity.
Defined.







(** On a store of N > 0 vectors a query with a larger count returns
    [top_k] entries: the N chunks nearest first, and then the last
    chunk once for each missing hit. *)
Lemma short_index_pads
    (SentenceTransformer : string → string → vec) (fs : disk)
    (index : IndexFlatL2) (chunks : list string) (query : string) (top_k : Z) :
  fs !! index_path = Some (File (FaissIndexData index)) →
  fs !! chunk_path = Some (File (PickleData chunks)) →
  length chunks = ntotal index → chunks ≠ [] →
  length (retriever.model SentenceTransformer query) = d index →
  Z.of_nat (ntotal index) < top_k →
  ∃ labels results c,
    retriever.query_vector_store SentenceTransformer query top_k fs
      = (inr (results ++ replicate (Z.to_nat top_k - ntotal index) c), fs) ∧
    last chunks = Some c ∧
    k_nearest index (retriever.model SentenceTransformer query) (ntotal index) labels ∧
    chunks_at chunks labels results.
Proof.
  intros Hi Hc Hlen Hne Hd Hk.
  destruct (search_chunks_short SentenceTransformer index chunks query top_k
              Hlen Hne Hd Hk) as (labels & results & c & Hs & Hrest).
  exists labels, results, c. split; [|done].
  by rewrite (query_loaded _ _ _ _ _ _ Hi Hc), Hs.
Qed.

(** C4: the code at a store of three vectors and a count of five.  The
    three chunks come nearest first, and the two padding labels [-1]
    each bring the last chunk once more. *)
Theorem short_index_repeats_last_chunk :
  scenario.gen1 !! index_path = Some (File (FaissIndexData scenario.old_index)) ∧
  scenario.gen1 !! chunk_path = Some (File (PickleData ["alpha"; "be"; "gamma"])) ∧
  scenario.query "beta" 5 scenario.gen1
    = (inr ["alpha"; "be"; "gamma"; "gamma"; "gamma"], scenario.gen1).
Proof. split_and!; vm_compute; reflexivity. Qed.

(** * Properties of the ingestion *)

Section ingestion_facts.
Variable SentenceTransformer : string → string → vec.
Variable RecursiveCharacterTextSplitter : nat → nat → string → list string.

Abbreviation build := (builder.build_vector_store SentenceTransformer RecursiveCharacterTextSplitter).


End ingestion_facts.





(** C5, as the code has it: the ingestion of a readable [.txt] document
    whose chunking yields no chunk fails, with the [IndexError] of
    [embeddings[0]] (the code has no check of its own for an empty
    document), and leaves the whole disk as it was. *)
Theorem empty_document_fails
    (SentenceTransformer : string → string → vec)
    (RecursiveCharacterTextSplitter : nat → nat → string → list string)
    (w_index w_chunks : write_outcome) (file_path raw : string) (fs : disk) :
  endswith file_path ".txt" = true →
  fs !! file_path = Some (File (Text raw)) →
  builder.split_text RecursiveCharacterTextSplitter raw = [] →
  builder.build_vector_store SentenceTransformer RecursiveCharacterTextSplitter
    w_index w_chunks file_path fs = (inl (IndexError "index out of range"), fs).
Proof.
  intros Htxt Hdoc Hnil.
  unfold builder.build_vector_store, bind, lift, builder.load_txt, read_text, py_assert.
  rewrite Htxt, Hdoc. cbv beta iota.
  by rewrite (vectorize_empty _ _ _ Hnil).
Qed.

Lemma empty_document_fails_witness :
  builder.build_vector_store stub.embed stub.splitter Completes Completes
    "empty.txt" scenario.gen1 = (inl (IndexError "index out of range"), scenario.gen1).
Proof.
  apply (empty_document_fails stub.embed stub.splitter Completes Completes
           "empty.txt" "" scenario.gen1).
  - reflexivity.
  - vm_compute. reflexivity.
  - reflexivity.
Defined.

(** C5 as stated fails: the exception of an empty document is the
    [IndexError] of the subscript, which is none of the errors that a
    check of the source raises. *)
Lemma empty_document_error_kind :
  scenario.docs !! "empty.txt" = Some (File (Text "")) ∧
  builder.split_text stub.splitter "" = [] ∧
  ∃ e, (scenario.build Completes Completes "empty.txt" scenario.gen1).1 = inl e ∧
       e = IndexError "index out of range" ∧
       raised_as e ≠ Some EmptyDocument.
Proof.
  split_and!; [vm_compute; reflexivity..|].
  exists (IndexError "index out of range").
  split_and!; [vm_compute; reflexivity|reflexivity|discriminate].
Qed.






(** * Further properties of the query *)

Section query_frame.
Variable SentenceTransformer : string → string → vec.

(** A run of the query, read off the two nodes it looks at. *)
Lemma query_by_nodes fs query top_k :
  retriever.query_vector_store SentenceTransformer query top_k fs =
    (match fs !! index_path, fs !! chunk_path with
     | None, _ | _, None => inl (FileNotFoundError retriever.not_built_msg)
     | Some (File (FaissIndexData index)), Some (File (PickleData chunks)) =>
         retriever.search_chunks SentenceTransformer index chunks query top_k
     | Some (File (FaissIndexData _)), Some Dir => inl (IsADirectoryError chunk_path)
     | Some (File (FaissIndexData _)), Some (File Truncated) => inl EOFError
     | Some (File (FaissIndexData _)), Some (File _) => inl UnpicklingError
     | Some _, Some _ => inl (RuntimeError index_path)
     end, fs).
Proof.
  unfold retriever.query_vector_store.
  destruct (retriever_paths) as [-> ->].
  unfold bind, os_path_exists, exists_on, faiss.read_index, pickle_load, lift, ret, raise.
  destruct (fs !! index_path) as [[|[s|index|cs|]]|] eqn:Hi;
    destruct (fs !! chunk_path) as [[|[s'|index'|chunks|]]|] eqn:Hc;
    do 3 (cbn beta iota zeta delta [negb orb]; rewrite ?Hi, ?Hc);
    try done.
  by destruct (retriever.search_chunks SentenceTransformer index chunks query top_k).
Qed.

(** A query that returns found both artifacts and is the search on the
    store they hold. *)
Lemma query_ok_inv fs fs' query top_k results :
  retriever.query_vector_store SentenceTransformer query top_k fs = (inr results, fs') →
  ∃ index chunks,
    fs !! index_path = Some (File (FaissIndexData index)) ∧
    fs !! chunk_path = Some (File (PickleData chunks)) ∧
    retriever.search_chunks SentenceTransformer index chunks query top_k = inr results.
Proof.
  rewrite query_by_nodes.
  destruct (fs !! index_path) as [[|[s|index|cs|]]|];
    destruct (fs !! chunk_path) as [[|[s'|index'|chunks|]]|]; try done.
  intros [= Hs _]. by exists index, chunks.
Qed.
End query_frame.

(** The query only reads: whatever its arguments and its outcome, it
    leaves the disk as it found it. *)
Theorem query_read_only
    (SentenceTransformer : string → string → vec)
    (query : string) (top_k : Z) (fs : disk) :
  (retriever.query_vector_store SentenceTransformer query top_k fs).2 = fs.
Proof. by rewrite query_by_nodes. Qed.

(** The outcome of a query depends on the two artifacts only: on two
    disks that agree on the index file and on the chunk file it is the
    same. *)
Theorem query_depends_on_artifacts_only
    (SentenceTransformer : string → string → vec)
    (query : string) (top_k : Z) (fs1 fs2 : disk) :
  fs1 !! index_path = fs2 !! index_path →
  fs1 !! chunk_path = fs2 !! chunk_path →
  (retriever.query_vector_store SentenceTransformer query top_k fs1).1
    = (retriever.query_vector_store SentenceTransformer query top_k fs2).1.
Proof. intros Hi Hc. by rewrite !query_by_nodes, Hi, Hc. Qed.

Lemma query_depends_on_artifacts_only_witness :
  (retriever.query_vector_store stub.embed "beta" 2 scenario.gen1).1
    = (retriever.query_vector_store stub.embed "beta" 2
         (delete "old.txt" scenario.gen1)).1.
Proof.
  apply (query_depends_on_artifacts_only stub.embed "beta" 2
           scenario.gen1 (delete "old.txt" scenario.gen1));
    vm_compute; reflexivity.
Defined.

Section query_results.
Variable SentenceTransformer : string → string → vec.
Implicit Types (chunks : list string) (row : list Z).

Lemma py_getitem_elem {A} (l : list A) i x : py_getitem l i = inr x → x ∈ l.
Proof.
  unfold py_getitem. cbv zeta. destruct (_ && _); [|done].
  destruct (l !! _) as [y|] eqn:Hy; [|done].
  intros [= <-]. by eapply list_elem_of_lookup_2.
Qed.

Lemma materialize_elem chunks row results :
  retriever.materialize chunks row = inr results → ∀ r, r ∈ results → r ∈ chunks.
Proof.
  revert results. induction row as [|i row IH]; intros results; simpl.
  - intros [= <-] r Hr. by apply elem_of_nil in Hr.
  - destruct (i <? Z.of_nat (length chunks)); [|by apply IH].
    destruct (py_getitem chunks i) as [e|c] eqn:Hc; simpl; [done|].
    destruct (retriever.materialize chunks row) as [e|rest]; simpl; [done|].
    intros [= <-] r [->|Hr]%elem_of_cons.
    + by eapply py_getitem_elem.
    + by eapply IH.
Qed.

Lemma search_chunks_elem index chunks query top_k results :
  retriever.search_chunks SentenceTransformer index chunks query top_k = inr results →
  ∀ r, r ∈ results → r ∈ chunks.
Proof.
  unfold retriever.search_chunks.
  destruct (faiss.search _ _ _) as [e|DI]; simpl; [done|].
  destruct (py_getitem DI.2 0) as [e|I0]; simpl; [done|].
  apply materialize_elem.
Qed.

(** When every label of the row is a valid index, the comprehension
    reads one chunk per label. *)
Lemma materialize_exact chunks row :
  (∀ i, i ∈ row → - Z.of_nat (length chunks) ≤ i < Z.of_nat (length chunks)) →
  ∃ results, retriever.materialize chunks row = inr results ∧
             Forall2 (λ i c, py_getitem chunks i = inr c) row results.
Proof.
  induction row as [|i row IH]; intros Hin; simpl.
  - exists []. split; [done|constructor].
  - destruct IH as (rest & Hrest & Hall); [intros j Hj; apply Hin; by right|].
    destruct (Hin i) as [Hlo Hhi]; [by left|].
    destruct (Z.ltb_spec i (Z.of_nat (length chunks))); [|lia].
    destruct (py_getitem_in_range chunks i) as [c Hc]; [done|].
    rewrite Hc, Hrest. simpl. exists (c :: rest). split; [done|by constructor].
Qed.

Lemma Forall2_getitem_inj chunks row res1 res2 :
  Forall2 (λ i c, py_getitem chunks i = inr c) row res1 →
  Forall2 (λ i c, py_getitem chunks i = inr c) row res2 → res1 = res2.
Proof.
  intros H1. revert res2. induction H1 as [|i c row res1 Hc _ IH]; intros res2 H2.
  - by apply Forall2_nil_inv_l in H2.
  - apply Forall2_cons_inv_l in H2 as (c' & res2' & Hc' & H2 & ->).
    f_equal; [congruence|by apply IH].
Qed.

(** On a store with as many chunks as vectors, and at least one, every
    label of a row is a valid index into the chunks. *)
Lemma search_row_range index chunks (k : nat) q :
  length chunks = ntotal index → chunks ≠ [] →
  ∀ i, i ∈ (faiss.search_row index k q).2 →
       - Z.of_nat (length chunks) ≤ i < Z.of_nat (length chunks).
Proof.
  intros Hlen Hne i Hin.
  assert (0 < length chunks)%nat as Hpos by (destruct chunks; [done|simpl; lia]).
  unfold faiss.search_row in Hin. cbn [snd] in Hin.
  apply elem_of_app in Hin as [Hin|Hin].
  - apply list_elem_of_fmap in Hin as (h & -> & Hh).
    assert (h ∈ faiss.scan index q) as [Hlt _]%elem_of_scan; [|lia].
    unfold faiss.knn in Hh. apply elem_of_take in Hh as (j & Hj & _).
    apply list_elem_of_lookup_2 in Hj. by rewrite sort_hits_perm in Hj.
  - apply elem_of_replicate in Hin as [-> _]. lia.
Qed.

Lemma search_row_take index q (k1 k2 : nat) :
  (k1 ≤ k2)%nat →
  (faiss.search_row index k1 q).2 = take k1 (faiss.search_row index k2 q).2.
Proof.
  intros Hk. unfold faiss.search_row, faiss.knn. cbn [snd].
  set (s := faiss.sort_hits (faiss.scan index q)).
  assert (length s = ntotal index) as Hs
    by (unfold s; by rewrite sort_hits_perm, scan_length).
  rewrite !length_take, Hs.
  destruct (decide (k2 ≤ ntotal index)%nat) as [Hle|Hgt].
  - replace (k2 - k2 `min` ntotal index)%nat with 0%nat by lia.
    replace (k1 - k1 `min` ntotal index)%nat with 0%nat by lia.
    simpl. rewrite !app_nil_r, <-fmap_take, take_take. do 2 f_equal. lia.
  - rewrite (take_ge s k2) by lia.
    replace (k2 `min` ntotal index)%nat with (ntotal index) by lia.
    rewrite take_app, length_fmap, Hs, <-fmap_take, take_replicate.
    do 2 f_equal. lia.
Qed.
End query_results.

(** Every passage that a query returns is one of the chunks of the chunk
    file: nothing is made up, whatever the index holds and whatever the
    count. *)
Theorem query_results_are_chunks
    (SentenceTransformer : string → string → vec)
    (query : string) (top_k : Z) (fs fs' : disk) (results : list string) :
  retriever.query_vector_store SentenceTransformer query top_k fs = (inr results, fs') →
  ∃ chunks,
    fs !! chunk_path = Some (File (PickleData chunks)) ∧
    ∀ r, r ∈ results → r ∈ chunks.
Proof.
  intros (index & chunks & _ & Hc & Hs)%query_ok_inv.
  exists chunks. split; [done|]. by eapply search_chunks_elem.
Qed.

Lemma query_results_are_chunks_witness :
  ∃ chunks,
    scenario.mismatched !! chunk_path = Some (File (PickleData chunks)) ∧
    ∀ r, r ∈ ["alpha"] → r ∈ chunks.
Proof.
  apply (query_results_are_chunks stub.embed "alpha" 2
           scenario.mismatched scenario.mismatched ["alpha"]).
  vm_compute. reflexivity.
Defined.

(** On a store with as many chunks as vectors, and at least one, asking
    for more passages only extends the answer: the answer for a count
    [k1] is the first [k1] passages of the answer for any larger count. *)
Theorem query_answers_nest
    (SentenceTransformer : string → string → vec) (fs : disk)
    (index : IndexFlatL2) (chunks : list string) (query : string) (k1 k2 : Z) :
  fs !! index_path = Some (File (FaissIndexData index)) →
  fs !! chunk_path = Some (File (PickleData chunks)) →
  length chunks = ntotal index → chunks ≠ [] →
  length (retriever.model SentenceTransformer query) = d index →
  1 ≤ k1 ≤ k2 →
  ∃ results1 results2,
    retriever.query_vector_store SentenceTransformer query k1 fs = (inr results1, fs) ∧
    retriever.query_vector_store SentenceTransformer query k2 fs = (inr results2, fs) ∧
    results1 = take (Z.to_nat k1) results2.
Proof.
  intros Hi Hc Hlen Hne Hd [Hk1 Hk2].
  set (q := retriever.model SentenceTransformer query).
  destruct (materialize_exact chunks (faiss.search_row index (Z.to_nat k1) q).2)
    as (results1 & Hm1 & Hall1); [by apply search_row_range|].
  destruct (materialize_exact chunks (faiss.search_row index (Z.to_nat k2) q).2)
    as (results2 & Hm2 & Hall2); [by apply search_row_range|].
  exists results1, results2.
  rewrite !(query_loaded _ _ _ _ _ _ Hi Hc).
  rewrite !search_chunks_row by (done || lia). fold q.
  rewrite Hm1, Hm2. split_and!; [done..|].
  eapply Forall2_getitem_inj; [exact Hall1|].
  rewrite (search_row_take index q (Z.to_nat k1) (Z.to_nat k2)) by lia.
  by apply Forall2_take.
Qed.

Lemma query_answers_nest_witness :
  ∃ results1 results2,
    retriever.query_vector_store stub.embed "beta" 2 scenario.gen1
      = (inr results1, scenario.gen1) ∧
    retriever.query_vector_store stub.embed "beta" 5 scenario.gen1
      = (inr results2, scenario.gen1) ∧
    results1 = take (Z.to_nat 2) results2.
Proof.
  apply (query_answers_nest stub.embed scenario.gen1 scenario.old_index
           ["alpha"; "be"; "gamma"] "beta" 2 5).
  - vm_compute. reflexivity.
  - vm_compute. reflexivity.
  - reflexivity.
  - discriminate.
  - reflexivity.
  - split; vm_compute; discriminate.
Defined.

Section distances.
Import faiss.
Implicit Types (x y : vec).



End distances.

Section recall.
Variable SentenceTransformer : string → string → vec.
Abbreviation rmodel := (retriever.model SentenceTransformer).


End recall.



(** * Further properties of the ingestion *)

Section rebuild_facts.
Variable SentenceTransformer : string → string → vec.
Variable RecursiveCharacterTextSplitter : nat → nat → string → list string.

Abbreviation build_store := (builder.build_vector_store SentenceTransformer RecursiveCharacterTextSplitter).
Abbreviation vectorize_text := (builder.vectorize SentenceTransformer RecursiveCharacterTextSplitter).


(** A path that ends in [.txt] is neither of the two artifacts, nor a
    directory of the knowledge base. *)
Lemma txt_path_not_artifact file_path :
  endswith file_path ".txt" = true →
  file_path ≠ index_path ∧ file_path ≠ chunk_path.
Proof. intros Htxt. split; intros ->; vm_compute in Htxt; discriminate. Qed.

(** A run that succeeds, step by step. *)
Lemma build_ok_steps w_index w_chunks file_path fs fs' :
  build_store w_index w_chunks file_path fs = (inr tt, fs') →
  ∃ raw index chunks fs1,
    endswith file_path ".txt" = true ∧
    fs !! file_path = Some (File (Text raw)) ∧
    vectorize_text raw = inr (index, chunks) ∧
    os_makedirs builder.VECTOR_STORE_PATH fs = (inr tt, fs1) ∧
    w_index = Completes ∧ w_chunks = Completes ∧
    fs' = <[chunk_path := File (PickleData chunks)]>
            (<[index_path := File (FaissIndexData index)]> fs1).
Proof.
  intros Hrun.
  destruct (build_run SentenceTransformer RecursiveCharacterTextSplitter
              w_index w_chunks file_path fs)
    as [(e & He & _)|(raw & index & chunks & Htxt & Hdoc & Hv & Hp)]; [congruence|].
  rewrite Hp in Hrun. revert Hrun. unfold builder.persist.
  destruct builder_paths as [-> ->]. unfold bind at 1.
  destruct (os_makedirs builder.VECTOR_STORE_PATH fs) as [[e|[]] fs1] eqn:Hmk; [done|].
  unfold bind, faiss.write_index, pickle_dump.
  destruct (write_file_cases w_index (RuntimeError index_path) index_path
              (FaissIndexData index) fs1)
    as [(-> & ->)|[->|[(-> & ->)|(-> & ->)]]]; try done.
  destruct (write_file_cases w_chunks (OSError chunk_path) chunk_path
              (PickleData chunks) (<[index_path := File (FaissIndexData index)]> fs1))
    as [(-> & ->)|[->|[(-> & ->)|(-> & ->)]]]; try done.
  intros [= <-]. by exists raw, index, chunks, fs1.
Qed.

(** After the directories were made, both exist and the leaf is a
    directory. *)
Lemma os_makedirs_made fs fs1 :
  os_makedirs builder.VECTOR_STORE_PATH fs = (inr tt, fs1) →
  is_Some (fs1 !! "vector_db") ∧ fs1 !! "vector_db/agri_knowledge" = Some Dir.
Proof.
  unfold os_makedirs.
  change (path_prefixes builder.VECTOR_STORE_PATH) with kb_dirs.
  unfold kb_dirs. cbn [os_makedirs_go].
  unfold bind, mkdir_ancestor, mkdir_leaf, os_mkdir, is_dir.
  destruct (fs !! "vector_db") as [n|] eqn:H1; cbv beta iota.
  - rewrite H1. destruct n as [|c]; cbv beta iota.
    + destruct (fs !! "vector_db/agri_knowledge") as [[|c]|] eqn:H2; cbv beta iota;
        rewrite ?H2; cbv beta iota; try done.
      * intros [= <-]. by rewrite H1, H2.
      * intros [= <-]. rewrite lookup_insert_ne, H1 by done.
        by rewrite lookup_insert_eq.
    + destruct (fs !! "vector_db/agri_knowledge") as [[|c']|] eqn:H2; try done.
      intros [= <-]. by rewrite H1, H2.
  - rewrite lookup_insert_eq. cbv beta iota.
    rewrite lookup_insert_ne by done.
    destruct (fs !! "vector_db/agri_knowledge") as [[|c]|] eqn:H2; cbv beta iota;
      rewrite ?lookup_insert_ne, ?H2 by done; cbv beta iota; try done.
    + intros [= <-]. rewrite lookup_insert_eq, lookup_insert_ne, H2 by done. eauto.
    + intros [= <-]. rewrite lookup_insert_ne, lookup_insert_eq by done.
      by rewrite lookup_insert_eq.
Qed.

(** Where both exist and the leaf is a directory, making the
    directories changes nothing. *)
Lemma os_makedirs_again fs :
  is_Some (fs !! "vector_db") → fs !! "vector_db/agri_knowledge" = Some Dir →
  os_makedirs builder.VECTOR_STORE_PATH fs = (inr tt, fs).
Proof.
  intros [n H1] H2. unfold os_makedirs.
  change (path_prefixes builder.VECTOR_STORE_PATH) with kb_dirs.
  unfold kb_dirs. cbn [os_makedirs_go].
  unfold bind, mkdir_ancestor, mkdir_leaf, os_mkdir, is_dir.
  rewrite H1. cbv beta iota. rewrite H1.
  destruct n as [|c]; cbv beta iota; rewrite ?H2; cbv beta iota; by rewrite ?H2.
Qed.
End rebuild_facts.

(** A run of the ingestion that succeeded can be repeated: on the disk
    it left, the same ingestion succeeds again and leaves that disk
    exactly as it is. *)
Theorem build_idempotent
    (SentenceTransformer : string → string → vec)
    (RecursiveCharacterTextSplitter : nat → nat → string → list string)
    (w_index w_chunks : write_outcome) (file_path : string) (fs fs' : disk) :
  builder.build_vector_store SentenceTransformer RecursiveCharacterTextSplitter
    w_index w_chunks file_path fs = (inr tt, fs') →
  builder.build_vector_store SentenceTransformer RecursiveCharacterTextSplitter
    w_index w_chunks file_path fs' = (inr tt, fs').
Proof.
  intros (raw & index & chunks & fs1 & Htxt & Hdoc & Hv & Hmk & -> & -> & ->)%build_ok_steps.
  destruct (txt_path_not_artifact file_path Htxt) as [Hni Hnc].
  pose proof (os_makedirs_kb fs) as Hg. rewrite Hmk in Hg. simpl in Hg.
  apply os_makedirs_made in Hmk as [Hroot Hleaf].
  set (fs' := <[chunk_path := File (PickleData chunks)]>
                (<[index_path := File (FaissIndexData index)]> fs1)).
  assert (fs' !! file_path = Some (File (Text raw))) as Hdoc'.
  { unfold fs'. rewrite !lookup_insert_ne by done.
    destruct (Hg file_path) as [->|(_ & Hnone & _)]; congruence. }
  assert (os_makedirs builder.VECTOR_STORE_PATH fs' = (inr tt, fs')) as Hmk'.
  { apply os_makedirs_again; unfold fs'; by rewrite !lookup_insert_ne. }
  unfold builder.build_vector_store, bind, lift, builder.load_txt, read_text, py_assert.
  rewrite Htxt, Hdoc'. cbv beta iota. rewrite Hv. cbv beta iota.
  unfold builder.persist. destruct builder_paths as [-> ->].
  unfold bind, faiss.write_index, pickle_dump. rewrite Hmk'. cbv beta iota.
  rewrite write_file_completes.
  2: { unfold fs'. by rewrite lookup_insert_ne, lookup_insert_eq. }
  rewrite (insert_id fs' index_path).
  2: { unfold fs'. by rewrite lookup_insert_ne, lookup_insert_eq. }
  rewrite write_file_completes by (unfold fs'; by rewrite lookup_insert_eq).
  rewrite (insert_id fs' chunk_path) by (unfold fs'; by rewrite lookup_insert_eq).
  done.
Qed.

Lemma build_idempotent_witness :
  builder.build_vector_store stub.embed stub.splitter Completes Completes
    "old.txt" scenario.gen1 = (inr tt, scenario.gen1).
Proof.
  apply (build_idempotent stub.embed stub.splitter Completes Completes
           "old.txt" scenario.docs scenario.gen1).
  vm_compute. reflexivity.
Defined.





(** The ingestion touches the disk only for a document that it
    accepted, read and turned into a store: a run that leaves the disk
    other than it found it had a path ending in [.txt], found a text
    document there and built the index from it. *)
Theorem build_changes_disk_only_after_vectorizing
    (SentenceTransformer : string → string → vec)
    (RecursiveCharacterTextSplitter : nat → nat → string → list string)
    (w_index w_chunks : write_outcome) (file_path : string) (fs : disk) :
  (builder.build_vector_store SentenceTransformer RecursiveCharacterTextSplitter
     w_index w_chunks file_path fs).2 ≠ fs →
  ∃ raw index chunks,
    endswith file_path ".txt" = true ∧
    fs !! file_path = Some (File (Text raw)) ∧
    builder.vectorize SentenceTransformer RecursiveCharacterTextSplitter raw
      = inr (index, chunks).
Proof.
  intros Hchanged.
  destruct (build_run SentenceTransformer RecursiveCharacterTextSplitter
              w_index w_chunks file_path fs)
    as [(e & He & _)|(raw & index & chunks & Htxt & Hdoc & Hv & _)].
  - by rewrite He in Hchanged.
  - by exists raw, index, chunks.
Qed.

Lemma build_changes_disk_only_after_vectorizing_witness :
  ∃ raw index chunks,
    endswith "old.txt" ".txt" = true ∧
    scenario.docs !! "old.txt" = Some (File (Text raw)) ∧
    builder.vectorize stub.embed stub.splitter raw = inr (index, chunks).
Proof.
  apply (build_changes_disk_only_after_vectorizing stub.embed stub.splitter
           Completes Completes "old.txt" scenario.docs).
  intros Heq.
  assert ((builder.build_vector_store stub.embed stub.splitter
             Completes Completes "old.txt" scenario.docs).2 !! index_path
          = scenario.docs !! index_path) as Hlook by (by rewrite Heq).
  vm_compute in Hlook. discriminate.
Defined.



(** * Ingestion followed by queries *)






(** A write that fails partway leaves a pair that no query answers
    from: after an ingestion whose write of the index or of the chunk
    list failed partway, every query raises. *)
Theorem query_after_partial_write_raises
    (SentenceTransformer : string → string → vec)
    (RecursiveCharacterTextSplitter : nat → nat → string → list string)
    (w_index w_chunks : write_outcome) (file_path : string) (fs fs' : disk) (e : exn)
    (query : string) (top_k : Z) :
  builder.build_vector_store SentenceTransformer RecursiveCharacterTextSplitter
    w_index w_chunks file_path fs = (inl e, fs') →
  (e = RuntimeError index_path ∧ w_index = FailsPartway) ∨
  (e = OSError chunk_path ∧ w_chunks = FailsPartway) →
  ∃ e', retriever.query_vector_store SentenceTransformer query top_k fs' = (inl e', fs').
Proof.
  intros Hrun Hpart.
  destruct (build_run SentenceTransformer RecursiveCharacterTextSplitter
              w_index w_chunks file_path fs)
    as [(e0 & He0 & Hkind)|(raw & index & chunks & _ & _ & _ & Hp)].
  { rewrite Hrun in He0. injection He0 as <- <-.
    exfalso. apply Hkind. by destruct Hpart as [[-> _]|[-> _]]. }
  destruct (persist_run w_index w_chunks index chunks fs) as (fs1 & _ & Hper).
  rewrite <-Hp, Hrun in Hper. rewrite query_by_nodes.
  inversion Hper as [e1 Hne Hopen|Hw|e1 Hw Hne Hopen|Hw1 Hw2|]; subst.
  - exfalso. destruct Hpart as [[-> ->]|[-> _]]; [by specialize (Hopen eq_refl)|done].
  - rewrite lookup_insert_eq.
    destruct (_ !! chunk_path); eauto.
  - exfalso. destruct Hpart as [[-> _]|[-> ->]]; [done|by specialize (Hopen eq_refl)].
  - rewrite lookup_insert_eq, lookup_insert_ne, lookup_insert_eq by done. eauto.
Qed.

Lemma query_after_partial_write_raises_witness :
  ∃ e', retriever.query_vector_store stub.embed "delta" 1
          (scenario.build Completes FailsPartway "new.txt" scenario.gen1).2
        = (inl e', (scenario.build Completes FailsPartway "new.txt" scenario.gen1).2).
Proof.
  apply (query_after_partial_write_raises stub.embed stub.splitter
           Completes FailsPartway "new.txt" scenario.gen1
           (scenario.build Completes FailsPartway "new.txt" scenario.gen1).2
           (OSError chunk_path) "delta" 1).
  - vm_compute. reflexivity.
  - right. split; reflexivity.
Defined.

(** * Outcomes of the ingestion that depend on the document *)

(** The extension is checked first: for a path that does not end in
    [.txt] the ingestion raises the assertion error, whether or not a
    file is there, and reads and writes nothing. *)
Theorem unsupported_extension_rejected
    (SentenceTransformer : string → string → vec)
    (RecursiveCharacterTextSplitter : nat → nat → string → list string)
    (w_index w_chunks : write_outcome) (file_path : string) (fs : disk) :
  endswith file_path ".txt" = false →
  builder.build_vector_store SentenceTransformer RecursiveCharacterTextSplitter
    w_index w_chunks file_path fs
    = (inl (AssertionError "Currently only TXT format uploads are supported"), fs).
Proof.
  intros Htxt. unfold builder.build_vector_store, bind, lift, py_assert.
  by rewrite Htxt.
Qed.

Lemma unsupported_extension_rejected_witness :
  builder.build_vector_store stub.embed stub.splitter Completes Completes
    "notes.TXT" scenario.docs
    = (inl (AssertionError "Currently only TXT format uploads are supported"),
       scenario.docs).
Proof.
  apply (unsupported_extension_rejected stub.embed stub.splitter
           Completes Completes "notes.TXT" scenario.docs).
  reflexivity.
Defined.



(** When the ingestion succeeds.  With an embedding model whose vectors
    all have one length, a readable [.txt] document that yields at
    least one chunk is ingested successfully on any disk where the two
    directories of the knowledge base are absent or are directories and
    neither artifact path is a directory, provided both writes
    complete. *)
Theorem build_succeeds_on_clean_disk
    (SentenceTransformer : string → string → vec)
    (RecursiveCharacterTextSplitter : nat → nat → string → list string)
    (dim : nat) (file_path raw : string) (fs : disk) :
  (∀ name text, length (SentenceTransformer name text) = dim) →
  endswith file_path ".txt" = true →
  fs !! file_path = Some (File (Text raw)) →
  builder.split_text RecursiveCharacterTextSplitter raw ≠ [] →
  (fs !! "vector_db" = None ∨ fs !! "vector_db" = Some Dir) →
  (fs !! "vector_db/agri_knowledge" = None ∨ fs !! "vector_db/agri_knowledge" = Some Dir) →
  fs !! index_path ≠ Some Dir →
  fs !! chunk_path ≠ Some Dir →
  ∃ fs',
    builder.build_vector_store SentenceTransformer RecursiveCharacterTextSplitter
      Completes Completes file_path fs = (inr tt, fs').
Proof.
  intros Hdim Htxt Hdoc Hne Hd1 Hd2 Hni Hnc.
  destruct (builder.split_text RecursiveCharacterTextSplitter raw)
    as [|c0 chunks] eqn:Hsplit; [done|].
  eapply build_succeeds; [done..| |done|done|done|done].
  apply (vectorize_ok _ _ _ c0 chunks); [done|].
  apply Forall_forall. intros c _. unfold builder.model. by rewrite !Hdim.
Qed.

Lemma build_succeeds_on_clean_disk_witness :
  ∃ fs',
    builder.build_vector_store stub.embed stub.splitter
      Completes Completes "new.txt" scenario.docs = (inr tt, fs').
Proof.
  apply (build_succeeds_on_clean_disk stub.embed stub.splitter 2
           "new.txt" "delta epsilon zeta" scenario.docs).
  - reflexivity.
  - reflexivity.
  - vm_compute. reflexivity.
  - discriminate.
  - left. vm_compute. reflexivity.
  - left. vm_compute. reflexivity.
  - vm_compute. discriminate.
  - vm_compute. discriminate.
Defined.
